(** * GitScout: a shallow embedding of [main.py]

    The configuration and state handling, the GitHub query construction, the
    Discord payload construction and the check cycle [run_check_once] of
    [main.py], with the HTTP calls, the clock and the file system passed in
    as explicit inputs or returned as explicit effects. *)

From Stdlib Require Import ZArith Ascii String List Lia.
From stdpp Require Import base gmap sets list.
Import ListNotations.
Open Scope Z_scope.
Set Warnings "-register-all".

(** ** Python values *)

(** A Python [str] as its sequence of Unicode code points: slicing
    ([body[:200]]) and [len] count code points. *)
Definition pystr := list Z.

(** An ASCII literal of the source as a [pystr]. *)
Definition lit (s : string) : pystr :=
  map (fun a => Z.of_nat (nat_of_ascii a)) (list_ascii_of_string s).

(** JSON values as [json.load] returns them and [json.dump] accepts them.
    A float is kept as its exact binary value [m * 2^e]. *)
Inductive json :=
| JNull
| JBool (b : bool)
| JInt (z : Z)
| JFloat (m e : Z)
| JStr (s : pystr)
| JArr (l : list json)
| JObj (kvs : list (pystr * json)).

(** A fetched issue is a [Dict[str, Any]], kept as the association list of
    its keys in insertion order. *)
Definition item := list (pystr * json).

Definition pystr_eqb (a b : pystr) : bool :=
  bool_decide (a = b).

(** [d.get(k)]: [None] when the key is absent. *)
Fixpoint dict_get (k : pystr) (d : list (pystr * json)) : option json :=
  match d with
  | [] => None
  | (k', v) :: d' => if pystr_eqb k k' then Some v else dict_get k d'
  end.

(** [it.get("id")] read as an issue id: an integer id, or [None] for a
    missing or [null] id (the [if iid is None: continue] branch).  The
    search API only ever returns integer ids; another JSON type under
    ["id"] is read like a missing id. *)
Definition item_id (it : item) : option Z :=
  match dict_get (lit "id") it with
  | Some (JInt z) => Some z
  | _ => None
  end.

(** ** Models (pydantic) *)

Record SearchConfig := mkSearchConfig {
  organizations : list pystr;
  languages : list pystr;
  polling_interval : Z
}.

Record NotificationConfig := mkNotificationConfig {
  webhook_url : option pystr
}.

Record AppConfig := mkAppConfig {
  search : SearchConfig;
  notif : NotificationConfig;
  is_active : bool;
  known_issue_ids : gset Z;
  last_items : list item
}.

Record UpdateConfigRequest := mkUpdateConfigRequest {
  body_search : SearchConfig;
  body_notif : NotificationConfig
}.

Definition default_search : SearchConfig := mkSearchConfig [] [] 120.
Definition default_notif : NotificationConfig := mkNotificationConfig None.

(** ** The dedup loop of [run_check_once] (lines 204-211)

    [for it in items: iid = it.get("id"); if iid is None: continue;
     if iid not in known: known.add(iid); new_issues.append(it)].
    Returns [new_issues] and the final [known_issue_ids]. *)
Fixpoint collect_new (known : gset Z) (items : list item)
  : list item * gset Z :=
  match items with
  | [] => ([], known)
  | it :: rest =>
      match item_id it with
      | None => collect_new known rest
      | Some iid =>
          if decide (iid ∈ known) then collect_new known rest
          else let '(n, k) := collect_new ({[iid]} ∪ known) rest in
               (it :: n, k)
      end
  end.

(** ** Python string helpers *)

Fixpoint digits_go (fuel : nat) (n : Z) : pystr :=
  match fuel with
  | O => []
  | S f => if n <? 10 then [48 + n] else digits_go f (n / 10) ++ [48 + n mod 10]
  end.

(** [str(n)] for an [int]. *)
Definition py_int_str (z : Z) : pystr :=
  if z <? 0 then 45 :: digits_go (S (Z.to_nat (Z.log2 (- z)))) (- z)
  else digits_go (S (Z.to_nat (Z.log2 z))) z.

Definition starts_with (p s : pystr) : bool := bool_decide (take (length p) s = p).

Fixpoint replace_go (fuel : nat) (old new s : pystr) : pystr :=
  match fuel with
  | O => s
  | S f =>
      match s with
      | [] => []
      | c :: r =>
          if starts_with old s then new ++ replace_go f old new (drop (length old) s)
          else c :: replace_go f old new r
      end
  end.

(** [s.replace(old, new)] for a non-empty [old]: every non-overlapping
    occurrence, scanning from the left. *)
Definition py_replace (s old new : pystr) : pystr :=
  replace_go (length s) old new s.

(** [f"{v}"] for the JSON values the search API puts under ["state"];
    floats, lists and dicts there are outside the model ([None]). *)
Definition py_format (v : option json) : option pystr :=
  match v with
  | None | Some JNull => Some (lit "None")
  | Some (JStr s) => Some s
  | Some (JBool true) => Some (lit "True")
  | Some (JBool false) => Some (lit "False")
  | Some (JInt z) => Some (py_int_str z)
  | Some _ => None
  end.

(** Python truthiness of a JSON value. *)
Definition json_truthy (v : json) : bool :=
  match v with
  | JNull | JBool false | JInt 0 | JFloat 0 _ | JStr [] | JArr [] | JObj [] => false
  | _ => true
  end.

(** ** [send_discord_webhook] (lines 153-183) *)

Record embed := mkEmbed {
  emb_title : json;
  emb_url : json;
  emb_description : pystr;
  emb_color : Z;
  emb_footer : pystr
}.

Record payload := mkPayload {
  content : pystr;
  embeds : list embed
}.

Definition json_of_get (v : option json) : json :=
  match v with Some j => j | None => JNull end.

(** [issue.get("repository_url", "").replace("https://api.github.com/repos/", "")]:
    [None] when the value has no [replace] method (AttributeError). *)
Definition repo_full_name (issue : item) : option pystr :=
  match dict_get (lit "repository_url") issue with
  | None => Some []
  | Some (JStr s) => Some (py_replace s (lit "https://api.github.com/repos/") [])
  | Some _ => None
  end.

(** [body = issue.get("body") or ""] followed by [body[:200]]: [None] when
    the slice raises (a truthy number or boolean: TypeError).  A non-empty
    list or dict body, which the search API never returns, is outside the
    model and also [None]. *)
Definition body_prefix (issue : item) : option pystr :=
  match dict_get (lit "body") issue with
  | None => Some []
  | Some v =>
      if negb (json_truthy v) then Some []
      else match v with JStr s => Some (take 200 s) | _ => None end
  end.

Definition nl : pystr := [10].

(** One entry of [embeds]; [None] when building it raises. *)
Definition render_embed (issue : item) : option embed :=
  match repo_full_name issue, py_format (dict_get (lit "state") issue),
        body_prefix issue with
  | Some repo, Some st, Some b =>
      Some (mkEmbed (json_of_get (dict_get (lit "title") issue))
                    (json_of_get (dict_get (lit "html_url") issue))
                    (lit "Repo: " ++ repo ++ nl ++ lit "State: " ++ st ++ nl ++ nl
                       ++ b ++ lit "...")
                    5814783 (lit "GitScout Notification"))
  | _, _, _ => None
  end.

Fixpoint render_embeds (issues : list item) : option (list embed) :=
  match issues with
  | [] => Some []
  | it :: rest =>
      match render_embed it, render_embeds rest with
      | Some e, Some es => Some (e :: es)
      | _, _ => None
      end
  end.

(** The rocket emoji U+1F680 that opens the message. *)
Definition rocket : pystr := [128640].

Definition headline (count : Z) : pystr :=
  rocket ++ lit " GitScout Alert: Found " ++ py_int_str count
    ++ lit " new 'good first issue'" ++ (if count =? 1 then [] else lit "s") ++ lit "!".

(** What a call of [send_discord_webhook] does before the POST: return
    early, raise while building the payload, or POST one payload. *)
Inductive send_plan :=
| SendNone
| SendRaise
| SendPost (url : pystr) (p : payload).

Definition send_discord_webhook (webhook_url : option pystr) (issues : list item)
  : send_plan :=
  match webhook_url with
  | None | Some [] => SendNone
  | Some url =>
      let count := Z.of_nat (length issues) in
      if count =? 0 then SendNone
      else match render_embeds (take 5 issues) with
           | None => SendRaise
           | Some es => SendPost url (mkPayload (headline count) es)
           end
  end.

(** ** The check cycle [run_check_once] (lines 188-227)

    The two network calls are inputs: [fetch_outcome] is what
    [await fetch_github_issues(config)] did, [post_outcome] what
    [await client.post(webhook_url, ...)] did.  The writes of
    [save_config] and the POST attempted are returned as effects. *)

Inductive fetch_outcome :=
| FetchOk (items : list item)      (** returned [data.get("items", [])] *)
| FetchHTTPError                   (** raised an [httpx.HTTPError]: transport error or non-2xx status *)
| FetchOtherError.                 (** raised another exception (a 2xx body that is not a JSON object) *)

Inductive post_outcome :=
| PostDone                         (** the request completed, whatever its status *)
| PostHTTPError.                   (** [client.post] raised ([httpx.HTTPError]: transport error, timeout) *)

Inductive effect :=
| ESave (cfg : AppConfig)          (** [save_config(cfg)] *)
| EPost (url : pystr) (p : payload).

Inductive py_exc :=
| ExcHTTPException502              (** [HTTPException(status_code=502, ...)] *)
| ExcHTTPError                     (** an [httpx.HTTPError] not caught in the cycle *)
| ExcTypeError                     (** a TypeError/AttributeError while building the payload *)
| ExcOther.

Inductive cycle_result :=
| Skipped                          (** [{"message": "watch inactive, skip"}] *)
| Summary (checked_at : pystr) (fetched new : Z)
| Raised (e : py_exc).

Definition set_known_last (cfg : AppConfig) (k : gset Z) (l : list item) : AppConfig :=
  mkAppConfig (search cfg) (notif cfg) (is_active cfg) k l.

Definition url_truthy (u : option pystr) : bool :=
  match u with None | Some [] => false | Some _ => true end.

(** One run: its result (returned or raised), the global [config] after it,
    and its effects in order.  [now] is [datetime.utcnow().isoformat()+"Z"]. *)
Definition run_check_once (config : AppConfig) (fetched : fetch_outcome)
    (post : post_outcome) (now : pystr) : cycle_result * AppConfig * list effect :=
  if negb (is_active config) then (Skipped, config, [])
  else
    match fetched with
    | FetchHTTPError => (Raised ExcHTTPException502, config, [])
    | FetchOtherError => (Raised ExcOther, config, [])
    | FetchOk items =>
        let '(new_issues, known') := collect_new (known_issue_ids config) items in
        let config' := set_known_last config known' items in
        let saved := [ESave config'] in
        let summary := Summary now (Z.of_nat (length items)) (Z.of_nat (length new_issues)) in
        if negb (bool_decide (new_issues = [])) && url_truthy (webhook_url (notif config'))
        then
          match send_discord_webhook (webhook_url (notif config')) new_issues with
          | SendNone => (summary, config', saved)
          | SendRaise => (Raised ExcTypeError, config', saved)
          | SendPost u p =>
              match post with
              | PostDone => (summary, config', saved ++ [EPost u p])
              | PostHTTPError => (Raised ExcHTTPError, config', saved ++ [EPost u p])
              end
          end
        else (summary, config', saved)
    end.

(** ** Control API mutations (lines 84-106) *)

Definition update_config (config : AppConfig) (body : UpdateConfigRequest)
  : AppConfig * list effect :=
  let config' := mkAppConfig (body_search body) (body_notif body) (is_active config)
                   (known_issue_ids config) (last_items config) in
  (config', [ESave config']).

Definition set_active (config : AppConfig) (b : bool) : AppConfig :=
  mkAppConfig (search config) (notif config) b (known_issue_ids config) (last_items config).

Definition start_watch (config : AppConfig) : AppConfig * list effect :=
  let config' := set_active config true in (config', [ESave config']).

Definition stop_watch (config : AppConfig) : AppConfig * list effect :=
  let config' := set_active config false in (config', [ESave config']).

(** The Control API's mutating endpoints and one check cycle
    ([run_check_once], from [/cron/check] or inside the worker).  The
    worker's per-iteration reload of the file, which also assigns the
    global [config], is [background_iteration] below. *)
Inductive operation :=
| OpUpdateConfig (body : UpdateConfigRequest)
| OpStartWatch
| OpStopWatch
| OpRunCheck (fetched : fetch_outcome) (post : post_outcome) (now : pystr).

Definition apply_op (config : AppConfig) (op : operation) : AppConfig :=
  match op with
  | OpUpdateConfig body => fst (update_config config body)
  | OpStartWatch => fst (start_watch config)
  | OpStopWatch => fst (stop_watch config)
  | OpRunCheck f p now => snd (fst (run_check_once config f p now))
  end.

Fixpoint apply_ops (config : AppConfig) (ops : list operation) : AppConfig :=
  match ops with
  | [] => config
  | op :: rest => apply_ops (apply_op config op) rest
  end.

(** ** Query construction of [fetch_github_issues] (lines 120-144) *)

(** [" ".join(parts)] *)
Fixpoint py_join (sep : pystr) (parts : list pystr) : pystr :=
  match parts with
  | [] => []
  | [p] => p
  | p :: rest => p ++ sep ++ py_join sep rest
  end.

Definition dquote : pystr := [34].

(** [label:"good first issue"] *)
Definition label_term : pystr := lit "label:" ++ dquote ++ lit "good first issue" ++ dquote.

(** The [parts] list, built by the two [for] loops and the final append. *)
Definition query_parts (cfg : AppConfig) : list pystr :=
  let parts := fold_left (fun parts name =>
                   (parts ++ [lit "org:" ++ name]) ++ [lit "user:" ++ name])
                 (organizations (search cfg)) [] in
  let parts := fold_left (fun parts lang => parts ++ [lit "language:" ++ lang])
                 (languages (search cfg)) parts in
  parts ++ [label_term].

Definition query (cfg : AppConfig) : pystr :=
  let parts := query_parts cfg in
  match parts with
  | [] => label_term
  | _ => py_join (lit " ") parts
  end.

Record search_params := mkSearchParams {
  param_q : pystr;
  param_sort : pystr;
  param_order : pystr;
  param_per_page : Z
}.

Definition fetch_params (cfg : AppConfig) : search_params :=
  mkSearchParams (query cfg) (lit "updated") (lit "desc") 50.

(** ** [save_config] and [load_config] (lines 38-63)

    The record is modelled at the level of the JSON value that
    [json.dump] writes and [json.load] reads back.  A [JObj] stands for a
    Python dict, whose keys are distinct. *)

Definition json_of_url (u : option pystr) : json :=
  match u with None => JNull | Some s => JStr s end.

(** [data = cfg.dict(); data["known_issue_ids"] = list(cfg.known_issue_ids)].
    [ids] is the order in which [list] enumerates the set. *)
Definition config_to_json (ids : list Z) (cfg : AppConfig) : json :=
  JObj [(lit "search", JObj [(lit "organizations", JArr (map JStr (organizations (search cfg))));
                             (lit "languages", JArr (map JStr (languages (search cfg))));
                             (lit "polling_interval", JInt (polling_interval (search cfg)))]);
        (lit "notif", JObj [(lit "webhook_url", json_of_url (webhook_url (notif cfg)))]);
        (lit "is_active", JBool (is_active cfg));
        (lit "known_issue_ids", JArr (map JInt ids));
        (lit "last_items", JArr (map JObj (last_items cfg)))].

(** [save_config(cfg)] writes [config_to_json ids cfg] for an enumeration
    [ids] of the set: each element once, in some order. *)
Definition save_writes (cfg : AppConfig) (ids : list Z) : Prop :=
  ids ≡ₚ elements (known_issue_ids cfg).

(** Pydantic validation of the field types, with the field defaults of the
    models.  Values of a type that [save_config] never writes are read as a
    validation error ([None]); pydantic's coercions of them are not
    modelled. *)
Fixpoint strs_of (l : list json) : option (list pystr) :=
  match l with
  | [] => Some []
  | JStr s :: r => s' ← strs_of r; Some (s :: s')
  | _ :: _ => None
  end.

Fixpoint ints_of (l : list json) : option (list Z) :=
  match l with
  | [] => Some []
  | JInt z :: r => r' ← ints_of r; Some (z :: r')
  | _ :: _ => None
  end.

Fixpoint dicts_of (l : list json) : option (list item) :=
  match l with
  | [] => Some []
  | JObj d :: r => r' ← dicts_of r; Some (d :: r')
  | _ :: _ => None
  end.

Definition str_list_field (d : list (pystr * json)) (k : pystr) : option (list pystr) :=
  match dict_get k d with
  | None => Some []
  | Some (JArr l) => strs_of l
  | Some _ => None
  end.

Definition parse_search (v : json) : option SearchConfig :=
  match v with
  | JObj d =>
      orgs ← str_list_field d (lit "organizations");
      langs ← str_list_field d (lit "languages");
      iv ← (match dict_get (lit "polling_interval") d with
            | None => Some 120
            | Some (JInt n) => Some n
            | Some _ => None
            end);
      Some (mkSearchConfig orgs langs iv)
  | _ => None
  end.

Definition parse_notif (v : json) : option NotificationConfig :=
  match v with
  | JObj d =>
      match dict_get (lit "webhook_url") d with
      | None | Some JNull => Some (mkNotificationConfig None)
      | Some (JStr u) => Some (mkNotificationConfig (Some u))
      | Some _ => None
      end
  | _ => None
  end.

(** [raw["known_issue_ids"] = set(raw.get("known_issue_ids", []));
    raw["last_items"] = raw.get("last_items", []); AppConfig( **raw)]. *)
Definition parse_config (raw : json) : option AppConfig :=
  match raw with
  | JObj d =>
      ids ← (match dict_get (lit "known_issue_ids") d with
             | None => Some []
             | Some (JArr l) => ints_of l
             | Some _ => None
             end);
      items ← (match dict_get (lit "last_items") d with
               | None => Some []
               | Some (JArr l) => dicts_of l
               | Some _ => None
               end);
      sc ← (v ← dict_get (lit "search") d; parse_search v);
      nc ← (v ← dict_get (lit "notif") d; parse_notif v);
      act ← (match dict_get (lit "is_active") d with
             | None => Some false
             | Some (JBool b) => Some b
             | Some _ => None
             end);
      Some (mkAppConfig sc nc act (list_to_set ids) items)
  | _ => None
  end.

Definition default_config : AppConfig :=
  mkAppConfig default_search default_notif false ∅ [].

(** [load_config()] on the file contents [disk] ([None]: no file).  The
    first component is [None] when loading raises. *)
Definition load_config (disk : option json) : option AppConfig * list effect :=
  match disk with
  | None => (Some default_config, [ESave default_config])
  | Some raw => (parse_config raw, [])
  end.

(** ** Two check cycles running at the same time (C6)

    [/cron/check] runs [run_check_once] as a coroutine on the server's event
    loop; [background_worker] runs it in its own OS thread through
    [asyncio.run].  No lock guards [config].  Between threads the
    interpreter may switch at any bytecode boundary, so the dedup loop of
    lines 205-211 is modelled at statement granularity: one step evaluates
    [iid not in config.known_issue_ids], a later step runs
    [config.known_issue_ids.add(iid); new_issues.append(it)].  The worker
    thread also assigns [config.known_issue_ids = cfg.known_issue_ids]
    (line 251) at the start of each iteration, with the set it read from
    the file: that assignment can land between any two steps of the
    cycles and is a schedule event of its own. *)

Record tstate := mkTstate {
  todo : list item;                    (** items the [for] loop has not reached *)
  tested : option (item * Z * bool);   (** an item whose membership test ran *)
  batch : list item                    (** [new_issues] so far *)
}.

Definition tstart (items : list item) : tstate := mkTstate items None [].

(** One step of a thread on the shared [known_issue_ids]; [None] when the
    loop has finished. *)
Definition tstep (known : gset Z) (t : tstate) : option (gset Z * tstate) :=
  match tested t with
  | Some (it, iid, fresh) =>
      if fresh then Some ({[iid]} ∪ known, mkTstate (todo t) None (batch t ++ [it]))
      else Some (known, mkTstate (todo t) None (batch t))
  | None =>
      match todo t with
      | [] => None
      | it :: rest =>
          match item_id it with
          | None => Some (known, mkTstate rest None (batch t))
          | Some iid => Some (known, mkTstate rest (Some (it, iid, bool_decide (iid ∉ known))) (batch t))
          end
      end
  end.

(** A scheduling event: a step of the first or of the second cycle, or the
    worker's reload of [known_issue_ids] from the file (line 251). *)
Inductive sched_event :=
| RunFirst
| RunSecond
| Reload (file_ids : gset Z).

(** Run two cycles under a schedule; a finished cycle's turn is a no-op.
    The loops look [config.known_issue_ids] up at each step, so after a
    reload they test and add to the reloaded set. *)
Fixpoint run_sched (known : gset Z) (a b : tstate) (sched : list sched_event)
  : gset Z * tstate * tstate :=
  match sched with
  | [] => (known, a, b)
  | RunFirst :: r =>
      match tstep known a with
      | Some (k, a') => run_sched k a' b r
      | None => run_sched known a b r
      end
  | RunSecond :: r =>
      match tstep known b with
      | Some (k, b') => run_sched k a b' r
      | None => run_sched known a b r
      end
  | Reload file_ids :: r => run_sched file_ids a b r
  end.

(** Identifiers of a batch. *)
Definition batch_ids (l : list item) : list Z := omap item_id l.

(** ** Further entry points of [main.py] *)

(** An operation with the effects it performs. *)
Definition apply_op_full (config : AppConfig) (op : operation) : AppConfig * list effect :=
  match op with
  | OpUpdateConfig body => update_config config body
  | OpStartWatch => start_watch config
  | OpStopWatch => stop_watch config
  | OpRunCheck f p now => let '(_, c, e) := run_check_once config f p now in (c, e)
  end.

(** [GET /issues] (lines 109-115): [load_config()] then its [last_items];
    [None] when loading raises. *)
Definition get_issues (disk : option json) : option (list item) * list effect :=
  let '(cfg, effs) := load_config disk in
  (match cfg with Some c => Some (last_items c) | None => None end, effs).

(** [time.sleep] converts its argument to a signed 64-bit count of
    nanoseconds: an [int] above [max_sleep_secs] raises [OverflowError]. *)
Definition max_sleep_secs : Z := 9223372036.

(** Seconds the worker sleeps after [time.sleep(interval)] (line 260): the
    interval itself, or, when that call raises [OverflowError], the
    [time.sleep(30)] of the [except] branch (line 265). *)
Definition sleep_secs (interval : Z) : Z :=
  if interval <=? max_sleep_secs then interval else 30.

(** One iteration of the [while True] loop of [background_worker]
    (lines 243-265), on the global [config] and the file contents [disk].
    Returns the global [config] afterwards, the effects, and the seconds
    the thread sleeps: [sleep_secs] of the clamped interval after a normal
    iteration, 30 after an exception from [load_config] or from the cycle.
    Lines 247-251 reassign every field of [config], [known_issue_ids]
    included, from the file. *)
Definition background_iteration (config : AppConfig) (disk : option json)
    (fetched : fetch_outcome) (post : post_outcome) (now : pystr)
  : AppConfig * list effect * Z :=
  match load_config disk with
  | (None, effs) => (config, effs, 30)
  | (Some cfg, effs) =>
      (* config.search = cfg.search; ...; config.last_items = cfg.last_items *)
      let config1 := mkAppConfig (search cfg) (notif cfg) (is_active cfg)
                       (known_issue_ids cfg) (last_items cfg) in
      let interval := Z.max (polling_interval (search cfg)) 30 in
      if is_active cfg then
        let '(r, config2, effs2) := run_check_once config1 fetched post now in
        match r with
        | Raised _ => (config2, effs ++ effs2, 30)
        | _ => (config2, effs ++ effs2, sleep_secs interval)
        end
      else (config1, effs, sleep_secs interval)
  end.

(** A record written by an older version, without the [known_issue_ids]
    and [last_items] keys. *)
Definition legacy_json (sc : SearchConfig) (nc : NotificationConfig) (act : bool) : json :=
  JObj [(lit "search", JObj [(lit "organizations", JArr (map JStr (organizations sc)));
                             (lit "languages", JArr (map JStr (languages sc)));
                             (lit "polling_interval", JInt (polling_interval sc))]);
        (lit "notif", JObj [(lit "webhook_url", json_of_url (webhook_url nc))]);
        (lit "is_active", JBool act)].

(** [old] occurs at no position of [s]. *)
Fixpoint no_occurrence (old s : pystr) : bool :=
  match s with
  | [] => true
  | _ :: r => negb (starts_with old s) && no_occurrence old r
  end.

(** ** Definitions used by the statements below *)

(** The fetched items whose id is present and absent from [seen]. *)
Definition fresh_in (seen : gset Z) (it : item) : bool :=
  match item_id it with Some x => bool_decide (x ∉ seen) | None => false end.

(** The first item of each id, in fetch order. *)
Fixpoint first_per_id (l : list item) : list item :=
  match l with
  | [] => []
  | it :: r => it :: List.filter (fun it' => negb (bool_decide (item_id it' = item_id it)))
                                 (first_per_id r)
  end.

Definition id_item (i : Z) (title : string) : item :=
  [(lit "id", JInt i); (lit "title", JStr (lit title))].

Definition active_config (seen : gset Z) (url : option pystr) : AppConfig :=
  mkAppConfig default_search (mkNotificationConfig url) true seen [].

(** The configuration a successful fetch leaves behind. *)
Definition config_after_fetch (cfg : AppConfig) (items : list item) : AppConfig :=
  set_known_last cfg (snd (collect_new (known_issue_ids cfg) items)) items.

Definition open_item (i : Z) : item :=
  [(lit "id", JInt i); (lit "title", JStr (lit "Fix typo")); (lit "state", JStr (lit "open"));
   (lit "repository_url", JStr (lit "https://api.github.com/repos/octo/demo"));
   (lit "body", JNull)].

Definition sample_config : AppConfig :=
  mkAppConfig (mkSearchConfig [lit "rust-lang"] [lit "rust"; lit "python"] 60)
    (mkNotificationConfig (Some (lit "https://hook"))) true {[3; 1; 2]} [open_item 3].

(** The shapes the search API gives the fields the payload reads:
    [repository_url] a string, [state] a string or null, [body] a string or
    null (each may also be missing). *)
Definition api_item (it : item) : Prop :=
  match dict_get (lit "repository_url") it with None | Some (JStr _) => True | _ => False end /\
  match dict_get (lit "state") it with None | Some JNull | Some (JStr _) => True | _ => False end /\
  match dict_get (lit "body") it with None | Some JNull | Some (JStr _) => True | _ => False end.

(** The text of the body, [""] when missing or null. *)
Definition body_text (it : item) : pystr :=
  match dict_get (lit "body") it with Some (JStr s) => s | _ => [] end.

(** An embed shows the issue's title, link, repository, state and at most
    the first 200 characters of its body. *)
Definition embed_of (it : item) (e : embed) : Prop :=
  emb_title e = json_of_get (dict_get (lit "title") it) /\
  emb_url e = json_of_get (dict_get (lit "html_url") it) /\
  exists repo st b,
    repo_full_name it = Some repo /\
    py_format (dict_get (lit "state") it) = Some st /\
    b = take 200 (body_text it) /\ (length b <= 200)%nat /\
    emb_description e = lit "Repo: " ++ repo ++ nl ++ lit "State: " ++ st ++ nl ++ nl
                          ++ b ++ lit "...".

(** ** Theorems *)

Lemma collect_new_known (seen : gset Z) (items : list item) :
  snd (collect_new seen items) = seen ∪ list_to_set (omap item_id items).
Proof.
  revert seen; induction items as [|it r IH]; intros seen; simpl.
  - set_solver.
  - destruct (item_id it) as [x|] eqn:Hx; simpl.
    + case_decide.
      * rewrite IH. set_solver.
      * destruct (collect_new ({[x]} ∪ seen) r) as [n k] eqn:E. simpl.
        specialize (IH ({[x]} ∪ seen)). rewrite E in IH. simpl in IH.
        rewrite IH. set_solver.
    + apply IH.
Qed.

Lemma filter_filter_andb {A} (f g : A -> bool) (l : list A) :
  List.filter f (List.filter g l) = List.filter (fun x => g x && f x) l.
Proof.
  induction l as [|x l IH]; simpl; [done|].
  destruct (g x); simpl; [destruct (f x); simpl|]; rewrite IH; reflexivity.
Qed.

Lemma collect_new_batch (seen : gset Z) (items : list item) :
  fst (collect_new seen items) = List.filter (fresh_in seen) (first_per_id items).
Proof.
  revert seen; induction items as [|it r IH]; intros seen; simpl; [done|].
  assert (Hf : fresh_in seen it = match item_id it with
                                  | Some x => bool_decide (x ∉ seen) | None => false end)
    by reflexivity.
  rewrite Hf; clear Hf.
  destruct (item_id it) as [x|] eqn:Hx.
  - case_decide as Hin.
    + rewrite bool_decide_false by tauto.
      rewrite IH, filter_filter_andb. apply filter_ext. intros it'.
      unfold fresh_in. destruct (item_id it') as [y|]; [|by destruct (negb _)].
      destruct (bool_decide_reflect (Some y = Some x)) as [[= ->]|Hne]; simpl.
      * rewrite bool_decide_false; tauto.
      * done.
    + rewrite bool_decide_true by tauto.
      destruct (collect_new ({[x]} ∪ seen) r) as [n k] eqn:E. simpl.
      f_equal. specialize (IH ({[x]} ∪ seen)). rewrite E in IH. simpl in IH.
      rewrite IH, filter_filter_andb. apply filter_ext. intros it'.
      unfold fresh_in. destruct (item_id it') as [y|]; [|by destruct (negb _)].
      destruct (bool_decide_reflect (Some y = Some x)) as [[= ->]|Hne]; simpl.
      * rewrite bool_decide_false; set_solver.
      * assert (y ≠ x) by congruence.
        apply bool_decide_ext. set_solver.
  - rewrite IH, filter_filter_andb. apply filter_ext. intros it'.
    unfold fresh_in. destruct (item_id it') as [y|]; [|by destruct (negb _)].
    rewrite (bool_decide_false (Some y = None)) by congruence. done.
Qed.

(** C1 (counterexample): when one fetch carries two items with the same
    id, absent from [known_issue_ids], only the first is new; the claim's
    batch (every fetched item whose id was absent at cycle start) has both. *)
Lemma C1_duplicate_id_counterexample :
  let items := [id_item 1 "first"; id_item 1 "second"] in
  fst (collect_new ∅ items) <> List.filter (fresh_in ∅) items /\
  fst (fst (run_check_once (active_config ∅ None) (FetchOk items) PostDone [])) = Summary [] 2 1.
Proof. simpl. split; [discriminate | reflexivity]. Qed.

(** C1 (amended): in an active cycle with a successful fetch, the batch of
    new items is the fetched items, in fetch order, whose id is present,
    absent from [known_issue_ids] at cycle start, and not carried by an
    earlier fetched item; the summary counts it and any notification is
    built from it; afterwards [known_issue_ids] is the old set plus every
    fetched id.  With ids 1, 2, 3 fetched and [{2}] seen, the batch is
    items 1 and 3 and the set becomes [{1,2,3}]. *)
Theorem C1_cycle_new_batch (cfg : AppConfig) (items : list item) (post : post_outcome)
    (now : pystr) (r : cycle_result) (cfg' : AppConfig) (effs : list effect) :
  is_active cfg = true ->
  run_check_once cfg (FetchOk items) post now = (r, cfg', effs) ->
  let B := List.filter (fresh_in (known_issue_ids cfg)) (first_per_id items) in
  known_issue_ids cfg' = known_issue_ids cfg ∪ list_to_set (omap item_id items) /\
  last_items cfg' = items /\
  (forall f n, r = Summary now f n -> n = Z.of_nat (length B)) /\
  (forall u p, EPost u p ∈ effs -> send_discord_webhook (webhook_url (notif cfg)) B = SendPost u p) /\
  (let i1 := id_item 1 "one" in let i2 := id_item 2 "two" in let i3 := id_item 3 "three" in
   List.filter (fresh_in {[2]}) (first_per_id [i1; i2; i3]) = [i1; i3] /\
   snd (collect_new {[2]} [i1; i2; i3]) = {[1; 2; 3]}).
Proof.
  intros Hact Hrun B.
  pose proof (collect_new_batch (known_issue_ids cfg) items) as Hb.
  pose proof (collect_new_known (known_issue_ids cfg) items) as Hk.
  unfold run_check_once in Hrun. rewrite Hact in Hrun. simpl in Hrun.
  destruct (collect_new (known_issue_ids cfg) items) as [n k] eqn:E.
  simpl in Hb, Hk. fold B in Hb. subst n k.
  cbn [set_known_last notif] in Hrun.
  assert (Hex : List.filter (fresh_in {[2]})
                  (first_per_id [id_item 1 "one"; id_item 2 "two"; id_item 3 "three"])
                = [id_item 1 "one"; id_item 3 "three"] /\
                snd (collect_new {[2]} [id_item 1 "one"; id_item 2 "two"; id_item 3 "three"])
                = {[1; 2; 3]}) by (split; reflexivity).
  destruct (negb (bool_decide (B = [])) && url_truthy (webhook_url (notif cfg))) eqn:Hc.
  - destruct (send_discord_webhook (webhook_url (notif cfg)) B) as [| |u0 p0] eqn:Hs;
      [| |destruct post]; injection Hrun; intros <- <- <-;
      (split; [reflexivity|split; [reflexivity|split; [|split; [|exact Hex]]]]);
      try (intros ? ? [=]; subst; reflexivity);
      try (intros ? ? ?; discriminate);
      intros u p Hin; apply list_elem_of_In in Hin; simpl in Hin; intuition congruence.
  - injection Hrun; intros <- <- <-.
    split; [reflexivity|split; [reflexivity|split; [|split; [|exact Hex]]]].
    + intros ? ? [=]; subst; reflexivity.
    + intros u p Hin. apply list_elem_of_In in Hin. simpl in Hin. intuition congruence.
Qed.

Lemma C1_cycle_new_batch_witness :
  run_check_once (active_config {[2]} None)
    (FetchOk [id_item 1 "one"; id_item 2 "two"; id_item 3 "three"]) PostDone []
  = (Summary [] 3 2,
     mkAppConfig default_search (mkNotificationConfig None) true {[1; 2; 3]}
       [id_item 1 "one"; id_item 2 "two"; id_item 3 "three"],
     [ESave (mkAppConfig default_search (mkNotificationConfig None) true {[1; 2; 3]}
       [id_item 1 "one"; id_item 2 "two"; id_item 3 "three"])]) /\
  known_issue_ids (mkAppConfig default_search (mkNotificationConfig None) true {[1; 2; 3]}
       [id_item 1 "one"; id_item 2 "two"; id_item 3 "three"])
  = {[2]} ∪ list_to_set (omap item_id [id_item 1 "one"; id_item 2 "two"; id_item 3 "three"]).
Proof.
  split; [reflexivity|].
  refine (proj1 (C1_cycle_new_batch (active_config {[2]} None)
    [id_item 1 "one"; id_item 2 "two"; id_item 3 "three"] PostDone [] _ _ _ eq_refl eq_refl)).
Defined.

(** C2: a cycle started while [is_active] is false returns the skip
    message at once: [config] is unchanged, nothing is saved and no
    notification is posted, whatever the network would have done. *)
Theorem C2_inactive_cycle_noop (cfg : AppConfig) (fetched : fetch_outcome)
    (post : post_outcome) (now : pystr) :
  is_active cfg = false ->
  run_check_once cfg fetched post now = (Skipped, cfg, []).
Proof. intros H. unfold run_check_once. rewrite H. reflexivity. Qed.

Lemma C2_inactive_cycle_noop_witness :
  is_active (mkAppConfig default_search (mkNotificationConfig (Some (lit "u"))) false {[5]} []) = false /\
  run_check_once (mkAppConfig default_search (mkNotificationConfig (Some (lit "u"))) false {[5]} [])
    (FetchOk [id_item 7 "x"]) PostDone []
  = (Skipped, mkAppConfig default_search (mkNotificationConfig (Some (lit "u"))) false {[5]} [], []).
Proof.
  split; [reflexivity|].
  apply (C2_inactive_cycle_noop _ (FetchOk [id_item 7 "x"]) PostDone []). reflexivity.
Defined.

(** C3: in an active cycle whose fetch raises an [httpx.HTTPError]
    (transport failure or non-success status), the cycle raises the 502
    [HTTPException] ("github error"), leaves [config] (so
    [known_issue_ids] and [last_items]) exactly as it was, and saves
    nothing; another exception from the fetch leaves them untouched too. *)
Theorem C3_fetch_failure_untouched (cfg : AppConfig) (post : post_outcome) (now : pystr) :
  is_active cfg = true ->
  run_check_once cfg FetchHTTPError post now = (Raised ExcHTTPException502, cfg, []) /\
  snd (fst (run_check_once cfg FetchOtherError post now)) = cfg /\
  snd (run_check_once cfg FetchOtherError post now) = [].
Proof. intros H. unfold run_check_once. rewrite H. repeat split. Qed.

Lemma C3_fetch_failure_untouched_witness :
  is_active (active_config {[2]} (Some (lit "u"))) = true /\
  run_check_once (active_config {[2]} (Some (lit "u"))) FetchHTTPError PostDone []
  = (Raised ExcHTTPException502, active_config {[2]} (Some (lit "u")), []).
Proof.
  split; [reflexivity|].
  apply (C3_fetch_failure_untouched (active_config {[2]} (Some (lit "u"))) PostDone []).
  reflexivity.
Defined.

(** C4 (counterexample): when the POST to the webhook raises, the cycle
    raises too instead of returning its summary. *)
Lemma C4_notify_error_escapes_counterexample :
  fst (fst (run_check_once (active_config ∅ (Some (lit "https://hook")))
                           (FetchOk [open_item 1]) PostHTTPError []))
  = Raised ExcHTTPError.
Proof. reflexivity. Qed.

(** C4 (amended): in an active cycle with a successful fetch, the new
    [known_issue_ids] and [last_items] are set and saved before any POST
    and are kept whatever the POST does; when the POST completes (whatever
    its HTTP status) the cycle returns its summary, and when the POST
    raises, the exception leaves the cycle instead of the summary. *)
Theorem C4_notify_after_save (cfg : AppConfig) (items : list item) (post : post_outcome)
    (now : pystr) (r : cycle_result) (cfg' : AppConfig) (effs : list effect) :
  is_active cfg = true ->
  run_check_once cfg (FetchOk items) post now = (r, cfg', effs) ->
  cfg' = config_after_fetch cfg items /\
  head effs = Some (ESave cfg') /\
  (forall u p, EPost u p ∈ effs ->
     r = match post with
         | PostDone => Summary now (Z.of_nat (length items))
                         (Z.of_nat (length (fst (collect_new (known_issue_ids cfg) items))))
         | PostHTTPError => Raised ExcHTTPError
         end).
Proof.
  intros Hact Hrun. unfold config_after_fetch.
  unfold run_check_once in Hrun. rewrite Hact in Hrun. simpl in Hrun.
  destruct (collect_new (known_issue_ids cfg) items) as [n k] eqn:E. simpl.
  cbn [set_known_last notif] in Hrun.
  destruct (negb (bool_decide (n = [])) && url_truthy (webhook_url (notif cfg))).
  - destruct (send_discord_webhook (webhook_url (notif cfg)) n) as [| |u0 p0];
      [| |destruct post]; injection Hrun; intros <- <- <-;
      (split; [reflexivity|split; [reflexivity|]]);
      intros u p Hin; apply list_elem_of_In in Hin; simpl in Hin;
      first [reflexivity | intuition congruence].
  - injection Hrun; intros <- <- <-.
    split; [reflexivity|split; [reflexivity|]].
    intros u p Hin. apply list_elem_of_In in Hin. simpl in Hin. intuition congruence.
Qed.

Lemma C4_notify_after_save_witness :
  run_check_once (active_config ∅ (Some (lit "https://hook"))) (FetchOk [open_item 1])
    PostHTTPError []
  = (Raised ExcHTTPError, config_after_fetch (active_config ∅ (Some (lit "https://hook"))) [open_item 1],
     [ESave (config_after_fetch (active_config ∅ (Some (lit "https://hook"))) [open_item 1]);
      EPost (lit "https://hook")
        (mkPayload (headline 1)
           [mkEmbed (JStr (lit "Fix typo")) JNull
              (lit "Repo: octo/demo" ++ nl ++ lit "State: open" ++ nl ++ nl ++ lit "...")
              5814783 (lit "GitScout Notification")])]) /\
  config_after_fetch (active_config ∅ (Some (lit "https://hook"))) [open_item 1]
  = config_after_fetch (active_config ∅ (Some (lit "https://hook"))) [open_item 1].
Proof.
  split; [reflexivity|].
  exact (proj1 (C4_notify_after_save (active_config ∅ (Some (lit "https://hook")))
    [open_item 1] PostHTTPError [] _ _ _ eq_refl eq_refl)).
Defined.

(** C10: [update_config] replaces [search] and [notif] and keeps
    [is_active], [known_issue_ids] and [last_items]. *)
Theorem C10_update_config_frame (cfg : AppConfig) (body : UpdateConfigRequest) :
  let cfg' := fst (update_config cfg body) in
  search cfg' = body_search body /\ notif cfg' = body_notif body /\
  is_active cfg' = is_active cfg /\ known_issue_ids cfg' = known_issue_ids cfg /\
  last_items cfg' = last_items cfg /\ snd (update_config cfg body) = [ESave cfg'].
Proof. simpl. repeat split. Qed.

(** ** Query construction (C7) *)

Lemma fold_orgs (names : list pystr) (acc : list pystr) :
  fold_left (fun parts name => (parts ++ [lit "org:" ++ name]) ++ [lit "user:" ++ name]) names acc
  = acc ++ flat_map (fun name => [lit "org:" ++ name; lit "user:" ++ name]) names.
Proof.
  revert acc; induction names as [|n ns IH]; intros acc; simpl.
  - by rewrite app_nil_r.
  - rewrite IH, <- !app_assoc. reflexivity.
Qed.

Lemma fold_langs (langs : list pystr) (acc : list pystr) :
  fold_left (fun parts lang => parts ++ [lit "language:" ++ lang]) langs acc
  = acc ++ map (fun lang => lit "language:" ++ lang) langs.
Proof.
  revert acc; induction langs as [|l ls IH]; intros acc; simpl.
  - by rewrite app_nil_r.
  - rewrite IH, <- app_assoc. reflexivity.
Qed.

(** C7: the query is a function of the filter alone: for each name an
    [org:] and a [user:] term, then a [language:] term per language, then
    the [label:"good first issue"] term, joined by spaces; an empty filter
    gives the label term alone; the request asks for 50 results sorted by
    update time, newest first. *)
Theorem C7_query_construction (cfg : AppConfig) :
  query_parts cfg =
    flat_map (fun name => [lit "org:" ++ name; lit "user:" ++ name]) (organizations (search cfg))
    ++ map (fun lang => lit "language:" ++ lang) (languages (search cfg))
    ++ [label_term] /\
  query cfg = py_join (lit " ") (query_parts cfg) /\
  (organizations (search cfg) = [] -> languages (search cfg) = [] -> query cfg = label_term) /\
  (forall cfg2, search cfg2 = search cfg -> fetch_params cfg2 = fetch_params cfg) /\
  param_per_page (fetch_params cfg) = 50 /\
  param_sort (fetch_params cfg) = lit "updated" /\
  param_order (fetch_params cfg) = lit "desc".
Proof.
  assert (Hp : forall c, query_parts c =
    flat_map (fun name => [lit "org:" ++ name; lit "user:" ++ name]) (organizations (search c))
    ++ map (fun lang => lit "language:" ++ lang) (languages (search c)) ++ [label_term]).
  { intros c. unfold query_parts. rewrite fold_langs, fold_orgs. simpl.
    rewrite <- !app_assoc. reflexivity. }
  split; [apply Hp|]. split; [|split; [|split; [|split; [|split]]]]; try reflexivity.
  - unfold query. destruct (query_parts cfg) eqn:E; [|reflexivity].
    rewrite Hp in E. apply (f_equal length) in E. rewrite !length_app in E. simpl in E. lia.
  - intros Ho Hl. unfold query. rewrite Hp, Ho, Hl. reflexivity.
  - intros cfg2 Hs. unfold fetch_params, query. rewrite !Hp, Hs. reflexivity.
Qed.

(** ** Persistence round trip (C8) *)

Lemma strs_of_map (l : list pystr) : strs_of (map JStr l) = Some l.
Proof. induction l as [|s l IH]; simpl; [done|]. by rewrite IH. Qed.

Lemma ints_of_map (l : list Z) : ints_of (map JInt l) = Some l.
Proof. induction l as [|z l IH]; simpl; [done|]. by rewrite IH. Qed.

Lemma dicts_of_map (l : list item) : dicts_of (map JObj l) = Some l.
Proof. induction l as [|d l IH]; simpl; [done|]. by rewrite IH. Qed.

(** C8: loading what [save_config] wrote gives back the saved state: same
    filter, webhook, [is_active] and [last_items], and the same set of
    known ids, in whatever order [list] enumerated the set; this includes
    the empty set and the empty filter. *)
Theorem C8_save_load_roundtrip (cfg : AppConfig) (ids : list Z) :
  save_writes cfg ids ->
  load_config (Some (config_to_json ids cfg)) = (Some cfg, []).
Proof.
  intros Hperm. destruct cfg as [[orgs langs iv] [url] act known items].
  unfold save_writes in Hperm; simpl in Hperm.
  unfold load_config, parse_config, config_to_json; simpl.
  rewrite ints_of_map, dicts_of_map; simpl.
  unfold parse_search, str_list_field; simpl.
  rewrite !strs_of_map; simpl.
  unfold parse_notif; simpl.
  assert (Hset : list_to_set ids = known).
  { rewrite (list_to_set_perm_L _ _ Hperm). apply list_to_set_elements_L. }
  destruct url; simpl; rewrite Hset; reflexivity.
Qed.

Lemma C8_save_load_roundtrip_witness :
  save_writes sample_config [2; 3; 1] /\
  load_config (Some (config_to_json [2; 3; 1] sample_config)) = (Some sample_config, []).
Proof.
  split; [|apply C8_save_load_roundtrip];
    unfold save_writes; apply (bool_decide_unpack _); vm_compute; reflexivity.
Defined.

(** ** The Discord payload (C9) *)

Lemma render_embed_api (it : item) :
  api_item it -> exists e, render_embed it = Some e /\ embed_of it e.
Proof.
  intros (Hr & Hs & Hb). unfold render_embed, embed_of, repo_full_name, body_prefix, body_text.
  destruct (dict_get (lit "repository_url") it) as [[]|] eqn:Er; try contradiction;
  destruct (dict_get (lit "state") it) as [[]|] eqn:Es; try contradiction;
  destruct (dict_get (lit "body") it) as [[]|] eqn:Eb; try contradiction;
  cbn [py_format json_truthy negb];
  try (match goal with |- context [match ?s with [] => false | _ :: _ => true end] =>
         destruct s; cbn [negb] end);
  eexists; (split; [reflexivity|]);
  (split; [reflexivity|split; [reflexivity|]]);
  do 3 eexists; (split; [reflexivity|split; [reflexivity|split; [reflexivity|split]]]);
  try reflexivity; rewrite length_take; lia.
Qed.

Lemma render_embeds_api (l : list item) :
  Forall api_item l -> exists es, render_embeds l = Some es /\ Forall2 embed_of l es.
Proof.
  induction 1 as [|it l Hit _ IH]; simpl.
  - exists []. split; [done|constructor].
  - destruct (render_embed_api it Hit) as (e & -> & He).
    destruct IH as (es & -> & Hes). exists (e :: es). split; [done|by constructor].
Qed.

(** C9: [send_discord_webhook] does nothing without a webhook (missing or
    empty) or without issues; otherwise it POSTs one payload to the webhook
    whose headline states the number of issues and whose embeds render the
    first [min 5 n] issues in order, each with title, link, repository,
    state and at most 200 characters of body.  With 7 issues the headline
    states 7 and the embeds are those of the first 5. *)
Theorem C9_send_discord_webhook (url : option pystr) (issues : list item) :
  (url = None \/ url = Some [] \/ issues = [] -> send_discord_webhook url issues = SendNone) /\
  (forall u, url = Some u -> u <> [] -> issues <> [] -> Forall api_item (take 5 issues) ->
     exists es,
       send_discord_webhook url issues
         = SendPost u (mkPayload (headline (Z.of_nat (length issues))) es) /\
       length es = Nat.min 5 (length issues) /\
       Forall2 embed_of (take 5 issues) es) /\
  (forall n, exists pre suf, headline n = pre ++ py_int_str n ++ suf) /\
  (let seven := map open_item [1; 2; 3; 4; 5; 6; 7] in
   exists es,
     send_discord_webhook (Some (lit "https://hook")) seven
       = SendPost (lit "https://hook") (mkPayload (headline 7) es) /\
     render_embeds (map open_item [1; 2; 3; 4; 5]) = Some es /\
     py_int_str 7 = lit "7").
Proof.
  split; [|split; [|split]].
  - intros [H|[H|H]]; subst; [reflexivity|reflexivity|]. by destruct url as [[|]|].
  - intros u -> Hu Hne Hall. unfold send_discord_webhook.
    destruct (render_embeds_api _ Hall) as (es & Hr & Hes).
    exists es. destruct u as [|c u]; [done|].
    assert (Hc : (Z.of_nat (length issues) =? 0) = false).
    { destruct issues; [done|]. simpl. lia. }
    rewrite Hc, Hr. split; [reflexivity|]. split; [|done].
    rewrite <- (Forall2_length _ _ _ Hes), length_take. reflexivity.
  - intros n. exists (rocket ++ lit " GitScout Alert: Found ").
    eexists. unfold headline. rewrite <- !app_assoc. reflexivity.
  - simpl. eexists. split; [reflexivity|]. split; reflexivity.
Qed.

(** ** Concurrent cycles (C6) *)

Lemma run_sched_app (k : gset Z) (a b : tstate) (s1 s2 : list sched_event) :
  run_sched k a b (s1 ++ s2) =
  let '(k', a', b') := run_sched k a b s1 in run_sched k' a' b' s2.
Proof.
  revert k a b; induction s1 as [|[| |k0] s1 IH]; intros k a b; simpl; [done| | |].
  - destruct (tstep k a) as [[k' a']|]; apply IH.
  - destruct (tstep k b) as [[k' b']|]; apply IH.
  - apply IH.
Qed.

Lemma run_done_first (k : gset Z) (acc : list item) (b : tstate) (n : nat) :
  run_sched k (mkTstate [] None acc) b (repeat RunFirst n) = (k, mkTstate [] None acc, b).
Proof. induction n as [|n IH]; simpl; [done|]. exact IH. Qed.

Lemma run_done_second (k : gset Z) (a : tstate) (acc : list item) (n : nat) :
  run_sched k a (mkTstate [] None acc) (repeat RunSecond n) = (k, a, mkTstate [] None acc).
Proof. induction n as [|n IH]; simpl; [done|]. exact IH. Qed.

(** One item of the dedup loop, run as its steps by one thread. *)
Lemma tstep_item (known : gset Z) (it : item) (rest acc : list item) :
  match item_id it with
  | None => tstep known (mkTstate (it :: rest) None acc) = Some (known, mkTstate rest None acc)
  | Some iid =>
      exists t, tstep known (mkTstate (it :: rest) None acc) = Some (known, t) /\
      tstep known t =
        Some (if decide (iid ∈ known) then (known, mkTstate rest None acc)
              else ({[iid]} ∪ known, mkTstate rest None (acc ++ [it])))
  end.
Proof.
  unfold tstep; simpl. destruct (item_id it) as [iid|]; [|done].
  eexists; split; [reflexivity|]. simpl.
  case_decide; [rewrite bool_decide_false by tauto | rewrite bool_decide_true by tauto]; done.
Qed.

(** A thread that runs its dedup loop without being interrupted computes
    the sequential loop [collect_new], whether it is the first thread ... *)
Lemma run_alone_first (items : list item) : forall (known : gset Z) (acc : list item)
    (n : nat) (b : tstate),
  (2 * length items <= n)%nat ->
  run_sched known (mkTstate items None acc) b (repeat RunFirst n) =
  (snd (collect_new known items), mkTstate [] None (acc ++ fst (collect_new known items)), b).
Proof.
  induction items as [|it rest IH]; intros known acc n b Hn.
  - rewrite run_done_first. simpl. by rewrite app_nil_r.
  - simpl in Hn. pose proof (tstep_item known it rest acc) as Hst.
    simpl. destruct (item_id it) as [iid|].
    + destruct Hst as (t & H1 & H2).
      destruct n as [|[|n]]; [lia|lia|]. simpl. rewrite H1, H2.
      case_decide.
      * rewrite IH by lia. reflexivity.
      * destruct (collect_new ({[iid]} ∪ known) rest) as [m kk] eqn:E.
        rewrite IH by lia. rewrite E. simpl. by rewrite <- app_assoc.
    + destruct n as [|n]; [lia|]. simpl. rewrite Hst. apply IH. lia.
Qed.

(** ... and as second thread. *)
Lemma run_alone_second (items : list item) : forall (known : gset Z) (acc : list item)
    (n : nat) (a : tstate),
  (2 * length items <= n)%nat ->
  run_sched known a (mkTstate items None acc) (repeat RunSecond n) =
  (snd (collect_new known items), a, mkTstate [] None (acc ++ fst (collect_new known items))).
Proof.
  induction items as [|it rest IH]; intros known acc n a Hn.
  - rewrite run_done_second. simpl. by rewrite app_nil_r.
  - simpl in Hn. pose proof (tstep_item known it rest acc) as Hst.
    simpl. destruct (item_id it) as [iid|].
    + destruct Hst as (t & H1 & H2).
      destruct n as [|[|n]]; [lia|lia|]. simpl. rewrite H1, H2.
      case_decide.
      * rewrite IH by lia. reflexivity.
      * destruct (collect_new ({[iid]} ∪ known) rest) as [m kk] eqn:E.
        rewrite IH by lia. rewrite E. simpl. by rewrite <- app_assoc.
    + destruct n as [|n]; [lia|]. simpl. rewrite Hst. apply IH. lia.
Qed.

Lemma collect_new_ids (l : list item) : forall (k : gset Z) (x : Z),
  x ∈ batch_ids (fst (collect_new k l)) -> (x ∉ k) /\ x ∈ snd (collect_new k l).
Proof.
  unfold batch_ids. induction l as [|it rest IH]; intros k x Hx; simpl in *.
  - inversion Hx.
  - destruct (item_id it) as [iid|] eqn:Hid; [|by apply IH].
    case_decide as Hin; [by apply IH|].
    pose proof (collect_new_known ({[iid]} ∪ k) rest) as Hk.
    destruct (collect_new ({[iid]} ∪ k) rest) as [m kk] eqn:E. simpl in *.
    specialize (IH ({[iid]} ∪ k) x). rewrite E in IH. simpl in IH.
    rewrite Hid in Hx. apply elem_of_cons in Hx as [->|Hx].
    + split; [done|]. rewrite Hk. set_solver.
    + destruct (IH Hx) as [H1 H2]. split; [set_solver|done].
Qed.

(** Two dedup loops run one after the other report disjoint batches. *)
Lemma collect_new_seq_disjoint (known : gset Z) (f1 f2 : list item) (x : Z) :
  x ∈ batch_ids (fst (collect_new known f1)) ->
  x ∉ batch_ids (fst (collect_new (snd (collect_new known f1)) f2)).
Proof.
  intros H1 H2. apply collect_new_ids in H1 as [_ H1].
  apply collect_new_ids in H2 as [H2 _]. contradiction.
Qed.

(** C6 (counterexample): the worker thread tests id 1 and is preempted;
    the [/cron/check] cycle tests and adds id 1; the worker then adds it
    too.  Both cycles report item 1 as new. *)
Lemma C6_interleaved_duplicate_counterexample :
  let '(_, worker, cron) :=
    run_sched ∅ (tstart [open_item 1]) (tstart [open_item 1]) [RunFirst; RunSecond; RunSecond; RunFirst] in
  batch worker = [open_item 1] /\ batch cron = [open_item 1].
Proof. split; reflexivity. Qed.

(** C6 (amended): when the two cycles' dedup loops run one after the other,
    in either order, with no reload between them (as for two [/cron/check]
    coroutines on the event loop, the loop having no [await]), no id is in
    both batches.  Nothing excludes the worker: its cycle can interleave
    its loop with another cycle's, and then one id can be reported as new
    by both; and its reload, with a set read from the file before the
    first cycle saved, between two cycles that run one after the other
    makes the second report again exactly what the first reported. *)
Theorem C6_cycles_not_excluded :
  (forall (known : gset Z) (f1 f2 : list item),
     let '(_, a, b) := run_sched known (tstart f1) (tstart f2)
                         (repeat RunFirst (2 * length f1) ++ repeat RunSecond (2 * length f2)) in
     forall x, x ∈ batch_ids (batch a) -> x ∉ batch_ids (batch b)) /\
  (forall (known : gset Z) (f1 f2 : list item),
     let '(_, a, b) := run_sched known (tstart f1) (tstart f2)
                         (repeat RunSecond (2 * length f2) ++ repeat RunFirst (2 * length f1)) in
     forall x, x ∈ batch_ids (batch b) -> x ∉ batch_ids (batch a)) /\
  (exists (known : gset Z) (f1 f2 : list item) (sched : list sched_event),
     (forall e, e ∈ sched -> e = RunFirst \/ e = RunSecond) /\
     let '(_, a, b) := run_sched known (tstart f1) (tstart f2) sched in
     exists x, x ∈ batch_ids (batch a) /\ x ∈ batch_ids (batch b)) /\
  (forall (known : gset Z) (f : list item),
     let '(_, a, b) := run_sched known (tstart f) (tstart f)
                         (repeat RunFirst (2 * length f) ++ Reload known
                            :: repeat RunSecond (2 * length f)) in
     batch a = batch b /\ batch a = fst (collect_new known f)).
Proof.
  split; [|split; [|split]].
  - intros known f1 f2. rewrite run_sched_app. unfold tstart.
    rewrite run_alone_first by lia. rewrite run_alone_second by lia. simpl.
    apply collect_new_seq_disjoint.
  - intros known f1 f2. rewrite run_sched_app. unfold tstart.
    rewrite run_alone_second by lia. rewrite run_alone_first by lia. simpl.
    apply collect_new_seq_disjoint.
  - exists ∅, [open_item 1], [open_item 1], [RunFirst; RunSecond; RunSecond; RunFirst].
    split.
    + intros e He. repeat (apply elem_of_cons in He as [->|He]; [tauto|]).
      inversion He.
    + simpl. exists 1. split; apply list_elem_of_In; simpl; tauto.
  - intros known f. rewrite run_sched_app. unfold tstart.
    rewrite run_alone_first by lia. simpl.
    rewrite run_alone_second by lia. simpl. split; reflexivity.
Qed.

(** ** Further properties of the code *)

Lemma load_saved_config (cfg : AppConfig) (ids : list Z) :
  save_writes cfg ids ->
  load_config (Some (config_to_json ids cfg)) = (Some cfg, []).
Proof.
  intros Hperm. destruct cfg as [[orgs langs iv] [url] act known items].
  unfold save_writes in Hperm; simpl in Hperm.
  unfold load_config, parse_config, config_to_json; simpl.
  rewrite ints_of_map, dicts_of_map; simpl.
  unfold parse_search, str_list_field; simpl.
  rewrite !strs_of_map; simpl.
  unfold parse_notif; simpl.
  rewrite (list_to_set_perm_L _ _ Hperm), list_to_set_elements_L.
  destruct url; reflexivity.
Qed.

(** A check cycle only adds ids to [known_issue_ids]. *)
Lemma run_check_once_known_grows (cfg : AppConfig) (f : fetch_outcome) (p : post_outcome)
    (now : pystr) :
  known_issue_ids cfg ⊆ known_issue_ids (snd (fst (run_check_once cfg f p now))).
Proof.
  unfold run_check_once. destruct (is_active cfg); simpl; [|done].
  destruct f as [items| |]; simpl; [|done|done].
  pose proof (collect_new_known (known_issue_ids cfg) items) as Hk.
  destruct (collect_new (known_issue_ids cfg) items) as [n k]. simpl in Hk. subst k.
  cbn [set_known_last notif].
  destruct (_ && _); [destruct (send_discord_webhook _ _); [| |destruct p]|];
    simpl; set_solver.
Qed.

(** C5 (counterexample): a background-worker iteration that finds no
    config file resets the in-memory [known_issue_ids] to the empty set,
    dropping every id seen before. *)
Lemma C5_worker_reload_drops_ids_counterexample :
  ~ (known_issue_ids sample_config
       ⊆ known_issue_ids (fst (fst (background_iteration sample_config None
                                      FetchHTTPError PostDone [])))).
Proof.
  simpl. intros H. specialize (H 1). set_solver.
Qed.

(** C5: the three mutating endpoints and a check cycle (whatever its fetch
    and POST do) never remove an id from [known_issue_ids], nor does any
    sequence of them.  A background-worker iteration first replaces the
    in-memory set by the one read from the file: it leaves the in-memory
    configuration unchanged when [load_config] raises, and otherwise ends
    with a superset of the file's set, which is a superset of the
    in-memory set when the file holds the last save of memory. *)
Theorem C5_known_ids_monotone (cfg : AppConfig) (ops : list operation) :
  (forall op, known_issue_ids cfg ⊆ known_issue_ids (apply_op cfg op)) /\
  known_issue_ids cfg ⊆ known_issue_ids (apply_ops cfg ops) /\
  (forall disk f p now,
     fst (load_config disk) = None ->
     fst (fst (background_iteration cfg disk f p now)) = cfg) /\
  (forall disk f p now file_cfg,
     fst (load_config disk) = Some file_cfg ->
     known_issue_ids file_cfg
       ⊆ known_issue_ids (fst (fst (background_iteration cfg disk f p now)))) /\
  (forall ids f p now,
     save_writes cfg ids ->
     known_issue_ids cfg
       ⊆ known_issue_ids (fst (fst (background_iteration cfg
                                      (Some (config_to_json ids cfg)) f p now)))).
Proof.
  assert (Hop : forall c op, known_issue_ids c ⊆ known_issue_ids (apply_op c op)).
  { intros c [body| | |f p now]; simpl; try done. apply run_check_once_known_grows. }
  assert (Hw : forall c disk f p now file_cfg,
            fst (load_config disk) = Some file_cfg ->
            known_issue_ids file_cfg
              ⊆ known_issue_ids (fst (fst (background_iteration c disk f p now)))).
  { intros c disk f p now file_cfg Hl. unfold background_iteration.
    destruct (load_config disk) as [o effs]. simpl in Hl. subst o.
    destruct file_cfg as [sc nc act known items]. simpl.
    destruct act; [|done].
    pose proof (run_check_once_known_grows (mkAppConfig sc nc true known items) f p now) as Hg.
    destruct (run_check_once _ f p now) as [[r c2] e2]. simpl in Hg.
    destruct r; exact Hg. }
  split; [apply Hop|]. split.
  { revert cfg; induction ops as [|op ops IH]; intros cfg; simpl; [done|].
    etrans; [apply (Hop cfg op)|apply IH]. }
  split.
  { intros disk f p now Hl. unfold background_iteration.
    destruct (load_config disk) as [o effs]. simpl in Hl. subst o. reflexivity. }
  split; [apply Hw|].
  intros ids f p now Hs. apply Hw.
  rewrite (load_saved_config _ _ Hs). reflexivity.
Qed.

Lemma C5_known_ids_monotone_witness :
  save_writes sample_config [1; 2; 3] /\
  known_issue_ids sample_config
    ⊆ known_issue_ids (fst (fst (background_iteration sample_config
                                   (Some (config_to_json [1; 2; 3] sample_config))
                                   (FetchOk [open_item 4]) PostDone []))).
Proof.
  assert (Hs : save_writes sample_config [1; 2; 3]).
  { unfold save_writes. apply (bool_decide_unpack _); vm_compute; reflexivity. }
  split; [exact Hs|].
  exact (proj2 (proj2 (proj2 (proj2 (C5_known_ids_monotone sample_config []))))
           [1; 2; 3] (FetchOk [open_item 4]) PostDone [] Hs).
Defined.

(** The shape of an active cycle with a successful fetch. *)
Lemma run_check_ok_shape (cfg : AppConfig) (items : list item) (post : post_outcome)
    (now : pystr) :
  is_active cfg = true ->
  let c' := config_after_fetch cfg items in
  let B := fst (collect_new (known_issue_ids cfg) items) in
  let summary := Summary now (Z.of_nat (length items)) (Z.of_nat (length B)) in
  run_check_once cfg (FetchOk items) post now =
    if negb (bool_decide (B = [])) && url_truthy (webhook_url (notif cfg)) then
      match send_discord_webhook (webhook_url (notif cfg)) B with
      | SendNone => (summary, c', [ESave c'])
      | SendRaise => (Raised ExcTypeError, c', [ESave c'])
      | SendPost u p =>
          match post with
          | PostDone => (summary, c', [ESave c'; EPost u p])
          | PostHTTPError => (Raised ExcHTTPError, c', [ESave c'; EPost u p])
          end
      end
    else (summary, c', [ESave c']).
Proof.
  intros Hact c' B summary. unfold run_check_once, c', B, summary, config_after_fetch.
  rewrite Hact. simpl.
  destruct (collect_new (known_issue_ids cfg) items) as [n k]. reflexivity.
Qed.

Lemma collect_new_all_seen (items : list item) : forall (k : gset Z),
  (forall x, x ∈ omap item_id items -> x ∈ k) -> collect_new k items = ([], k).
Proof.
  induction items as [|it rest IH]; intros k Hall; simpl; [done|].
  simpl in Hall. destruct (item_id it) as [iid|].
  - rewrite decide_True by (apply Hall; left). apply IH.
    intros x Hx. apply Hall. by right.
  - by apply IH.
Qed.

Lemma collect_new_length (items : list item) : forall (k : gset Z),
  (length (fst (collect_new k items)) <= length items)%nat.
Proof.
  induction items as [|it rest IH]; intros k; simpl; [lia|].
  destruct (item_id it) as [iid|]; [|specialize (IH k); lia].
  case_decide; [specialize (IH k); lia|].
  specialize (IH ({[iid]} ∪ k)).
  destruct (collect_new ({[iid]} ∪ k) rest) as [n kk]. simpl in *. lia.
Qed.

(** X1: without a config file, [load_config] returns the default
    configuration (empty filter, interval 120, no webhook, inactive, no
    known ids, no items) and writes it; loading the written file gives the
    same default back. *)
Theorem load_config_first_run :
  load_config None = (Some default_config, [ESave default_config]) /\
  (forall ids, save_writes default_config ids ->
     load_config (Some (config_to_json ids default_config)) = (Some default_config, [])) /\
  organizations (search default_config) = [] /\ languages (search default_config) = [] /\
  polling_interval (search default_config) = 120 /\ webhook_url (notif default_config) = None /\
  is_active default_config = false /\ known_issue_ids default_config = ∅ /\
  last_items default_config = [].
Proof.
  split; [reflexivity|]. split; [|repeat split].
  intros ids H. apply load_saved_config, H.
Qed.

(** X2: a record without the [known_issue_ids] and [last_items] keys loads
    with an empty id set and an empty item list, the other fields as
    written. *)
Theorem load_config_legacy_record (sc : SearchConfig) (nc : NotificationConfig) (act : bool) :
  load_config (Some (legacy_json sc nc act)) = (Some (mkAppConfig sc nc act ∅ []), []).
Proof.
  destruct sc as [orgs langs iv], nc as [url].
  unfold load_config, parse_config, legacy_json; simpl.
  unfold parse_search, str_list_field; simpl. rewrite !strs_of_map; simpl.
  unfold parse_notif; simpl. destruct url; reflexivity.
Qed.

Lemma run_check_saves (config : AppConfig) (f : fetch_outcome) (p : post_outcome)
    (now : pystr) (r : cycle_result) (c' : AppConfig) (e : list effect) (c : AppConfig) :
  run_check_once config f p now = (r, c', e) -> In (ESave c) e -> c = c'.
Proof.
  intros E Hin. destruct (is_active config) eqn:Ha.
  - destruct f as [items| |].
    + rewrite (run_check_ok_shape config items p now Ha) in E.
      destruct (_ && _); [destruct (send_discord_webhook _ _); [| |destruct p]|];
        injection E; intros <- <- <-; simpl in Hin; intuition congruence.
    + unfold run_check_once in E. rewrite Ha in E. injection E; intros <- <- <-. done.
    + unfold run_check_once in E. rewrite Ha in E. injection E; intros <- <- <-. done.
  - unfold run_check_once in E. rewrite Ha in E. injection E; intros <- <- <-. done.
Qed.

Lemma saved_is_result (config : AppConfig) (op : operation) (c : AppConfig) :
  ESave c ∈ snd (apply_op_full config op) -> c = fst (apply_op_full config op).
Proof.
  intros Hin. apply list_elem_of_In in Hin.
  destruct op as [body| | |f p now]; cbn [apply_op_full] in *;
    try (unfold update_config, start_watch, stop_watch in *; simpl in *;
         destruct Hin as [H|[]]; congruence).
  - destruct (run_check_once config f p now) as [[r c'] e] eqn:E. simpl in *.
    exact (run_check_saves _ _ _ _ _ _ _ _ E Hin).
Qed.

(** X3: every operation that changes [config] saves exactly its resulting
    in-memory configuration, so loading what any of its saves wrote gives
    back the configuration the operation left in memory. *)
Theorem op_save_matches_memory (config : AppConfig) (op : operation) (c : AppConfig)
    (ids : list Z) :
  ESave c ∈ snd (apply_op_full config op) -> save_writes c ids ->
  fst (apply_op_full config op) = apply_op config op /\
  load_config (Some (config_to_json ids c)) = (Some (apply_op config op), []).
Proof.
  intros Hin Hw.
  assert (Hf : fst (apply_op_full config op) = apply_op config op).
  { destruct op as [body| | |f p now]; simpl; try reflexivity.
    destruct (run_check_once config f p now) as [[r c'] e]. reflexivity. }
  split; [exact Hf|]. rewrite <- Hf, <- (saved_is_result _ _ _ Hin).
  by apply load_saved_config.
Qed.

Lemma op_save_matches_memory_witness :
  ESave (fst (start_watch default_config)) ∈ snd (apply_op_full default_config OpStartWatch) /\
  save_writes (fst (start_watch default_config)) [] /\
  load_config (Some (config_to_json [] (fst (start_watch default_config))))
    = (Some (apply_op default_config OpStartWatch), []).
Proof.
  assert (H1 : ESave (fst (start_watch default_config))
                 ∈ snd (apply_op_full default_config OpStartWatch))
    by (simpl; left).
  assert (H2 : save_writes (fst (start_watch default_config)) []) by (unfold save_writes; reflexivity).
  split; [exact H1|]. split; [exact H2|].
  exact (proj2 (op_save_matches_memory default_config OpStartWatch _ [] H1 H2)).
Defined.

(** X4: after an active cycle with a successful fetch, [GET /issues]
    reading the saved file returns the whole fetched list, new and already
    seen items alike, in fetch order. *)
Theorem get_issues_after_cycle (cfg : AppConfig) (items : list item) (post : post_outcome)
    (now : pystr) (r : cycle_result) (cfg' : AppConfig) (effs : list effect) (ids : list Z) :
  is_active cfg = true ->
  run_check_once cfg (FetchOk items) post now = (r, cfg', effs) ->
  save_writes cfg' ids ->
  head effs = Some (ESave cfg') /\
  get_issues (Some (config_to_json ids cfg')) = (Some items, []).
Proof.
  intros Ha E Hw.
  rewrite (run_check_ok_shape cfg items post now Ha) in E.
  assert (Hc : cfg' = config_after_fetch cfg items /\ head effs = Some (ESave cfg')).
  { destruct (_ && _); [destruct (send_discord_webhook _ _); [| |destruct post]|];
      injection E; intros <- <- <-; split; reflexivity. }
  destruct Hc as [Hc Hh]. split; [exact Hh|].
  unfold get_issues. rewrite (load_saved_config _ _ Hw). simpl. by rewrite Hc.
Qed.

Lemma get_issues_after_cycle_witness :
  is_active (active_config {[2]} None) = true /\
  run_check_once (active_config {[2]} None) (FetchOk [open_item 1; open_item 2]) PostDone []
    = (Summary [] 2 1, config_after_fetch (active_config {[2]} None) [open_item 1; open_item 2],
       [ESave (config_after_fetch (active_config {[2]} None) [open_item 1; open_item 2])]) /\
  save_writes (config_after_fetch (active_config {[2]} None) [open_item 1; open_item 2]) [1; 2] /\
  get_issues (Some (config_to_json [1; 2]
    (config_after_fetch (active_config {[2]} None) [open_item 1; open_item 2])))
  = (Some [open_item 1; open_item 2], []).
Proof.
  assert (H1 : is_active (active_config {[2]} None) = true) by reflexivity.
  assert (H2 : run_check_once (active_config {[2]} None) (FetchOk [open_item 1; open_item 2]) PostDone []
    = (Summary [] 2 1, config_after_fetch (active_config {[2]} None) [open_item 1; open_item 2],
       [ESave (config_after_fetch (active_config {[2]} None) [open_item 1; open_item 2])]))
    by reflexivity.
  assert (H3 : save_writes (config_after_fetch (active_config {[2]} None)
                 [open_item 1; open_item 2]) [1; 2])
    by (unfold save_writes; apply (bool_decide_unpack _); vm_compute; reflexivity).
  split; [exact H1|]. split; [exact H2|]. split; [exact H3|].
  exact (proj2 (get_issues_after_cycle _ _ _ _ _ _ _ _ H1 H2 H3)).
Defined.

(** X5: an active cycle in which no fetched item is new (an empty fetch,
    or only ids already known) posts nothing, whatever the webhook: it
    records the fetched list, saves, and returns a summary with 0 new. *)
Theorem cycle_nothing_new_no_post (cfg : AppConfig) (items : list item) (post : post_outcome)
    (now : pystr) :
  is_active cfg = true ->
  fst (collect_new (known_issue_ids cfg) items) = [] ->
  run_check_once cfg (FetchOk items) post now =
    (Summary now (Z.of_nat (length items)) 0, config_after_fetch cfg items,
     [ESave (config_after_fetch cfg items)]).
Proof.
  intros Ha Hb. rewrite (run_check_ok_shape cfg items post now Ha). simpl.
  rewrite Hb, bool_decide_true by reflexivity. reflexivity.
Qed.

Lemma cycle_nothing_new_no_post_witness :
  is_active (active_config {[1]} (Some (lit "https://hook"))) = true /\
  fst (collect_new {[1]} [open_item 1]) = [] /\
  run_check_once (active_config {[1]} (Some (lit "https://hook"))) (FetchOk [open_item 1]) PostDone []
  = (Summary [] 1 0, config_after_fetch (active_config {[1]} (Some (lit "https://hook"))) [open_item 1],
     [ESave (config_after_fetch (active_config {[1]} (Some (lit "https://hook"))) [open_item 1])]).
Proof.
  split; [reflexivity|]. split; [reflexivity|].
  apply cycle_nothing_new_no_post; reflexivity.
Defined.

(** X6: running a second active cycle on the same fetched list, right
    after the first, reports 0 new items, posts nothing and leaves the
    configuration as the first cycle left it. *)
Theorem cycle_repeat_idempotent (cfg : AppConfig) (items : list item) (post post2 : post_outcome)
    (now now2 : pystr) (r : cycle_result) (cfg' : AppConfig) (effs : list effect) :
  is_active cfg = true ->
  run_check_once cfg (FetchOk items) post now = (r, cfg', effs) ->
  run_check_once cfg' (FetchOk items) post2 now2 =
    (Summary now2 (Z.of_nat (length items)) 0, cfg', [ESave cfg']).
Proof.
  intros Ha E.
  assert (Hc : cfg' = config_after_fetch cfg items).
  { rewrite (run_check_ok_shape cfg items post now Ha) in E.
    destruct (_ && _); [destruct (send_discord_webhook _ _); [| |destruct post]|];
      injection E; intros; congruence. }
  subst cfg'.
  assert (Hk : collect_new (known_issue_ids (config_after_fetch cfg items)) items
               = ([], known_issue_ids (config_after_fetch cfg items))).
  { apply collect_new_all_seen. intros x Hx. simpl.
    rewrite collect_new_known. set_solver. }
  assert (Hfix : config_after_fetch (config_after_fetch cfg items) items
                 = config_after_fetch cfg items).
  { unfold config_after_fetch at 1. rewrite Hk. reflexivity. }
  rewrite cycle_nothing_new_no_post; [| exact Ha | by rewrite Hk].
  by rewrite Hfix.
Qed.

Lemma cycle_repeat_idempotent_witness :
  is_active (active_config ∅ None) = true /\
  run_check_once (config_after_fetch (active_config ∅ None) [open_item 1; open_item 2])
    (FetchOk [open_item 1; open_item 2]) PostDone [1]
  = (Summary [1] 2 0, config_after_fetch (active_config ∅ None) [open_item 1; open_item 2],
     [ESave (config_after_fetch (active_config ∅ None) [open_item 1; open_item 2])]).
Proof.
  split; [reflexivity|].
  exact (cycle_repeat_idempotent (active_config ∅ None) [open_item 1; open_item 2]
           PostDone PostDone [] [1] _ _ _ eq_refl eq_refl).
Defined.

(** X7: an active cycle with no webhook configured ([None] or the empty
    string) never posts: it saves and returns its summary, whatever the
    batch of new items. *)
Theorem cycle_without_webhook_no_post (cfg : AppConfig) (items : list item)
    (post : post_outcome) (now : pystr) :
  is_active cfg = true ->
  url_truthy (webhook_url (notif cfg)) = false ->
  run_check_once cfg (FetchOk items) post now =
    (Summary now (Z.of_nat (length items))
       (Z.of_nat (length (fst (collect_new (known_issue_ids cfg) items)))),
     config_after_fetch cfg items, [ESave (config_after_fetch cfg items)]).
Proof.
  intros Ha Hu. rewrite (run_check_ok_shape cfg items post now Ha). simpl.
  rewrite Hu, andb_false_r. reflexivity.
Qed.

Lemma cycle_without_webhook_no_post_witness :
  is_active (active_config ∅ (Some [])) = true /\
  url_truthy (webhook_url (notif (active_config ∅ (Some [])))) = false /\
  run_check_once (active_config ∅ (Some [])) (FetchOk [open_item 4]) PostHTTPError []
  = (Summary [] 1 1, config_after_fetch (active_config ∅ (Some [])) [open_item 4],
     [ESave (config_after_fetch (active_config ∅ (Some [])) [open_item 4])]).
Proof.
  split; [reflexivity|]. split; [reflexivity|].
  apply cycle_without_webhook_no_post; reflexivity.
Defined.

(** X8: a cycle returns a summary only when it was active and its fetch
    succeeded; the summary counts all fetched items, and the new count is
    between 0 and the fetched count. *)
Theorem cycle_summary_bounds (cfg : AppConfig) (f : fetch_outcome) (post : post_outcome)
    (now t : pystr) (fetched new : Z) (cfg' : AppConfig) (effs : list effect) :
  run_check_once cfg f post now = (Summary t fetched new, cfg', effs) ->
  is_active cfg = true /\ t = now /\
  exists items, f = FetchOk items /\ fetched = Z.of_nat (length items) /\ 0 <= new <= fetched.
Proof.
  intros E. destruct (is_active cfg) eqn:Ha;
    [|unfold run_check_once in E; rewrite Ha in E; discriminate].
  destruct f as [items| |]; try (unfold run_check_once in E; rewrite Ha in E; discriminate).
  pose proof (collect_new_length items (known_issue_ids cfg)) as Hl.
  rewrite (run_check_ok_shape cfg items post now Ha) in E.
  split; [done|].
  destruct (_ && _); [destruct (send_discord_webhook _ _); [| |destruct post]|];
    injection E; intros; subst; try discriminate;
    (split; [done|]); exists items; (split; [done|]); (split; [done|]); lia.
Qed.

Lemma cycle_summary_bounds_witness :
  run_check_once (active_config {[2]} None) (FetchOk [open_item 1; open_item 2]) PostDone []
    = (Summary [] 2 1, config_after_fetch (active_config {[2]} None) [open_item 1; open_item 2],
       [ESave (config_after_fetch (active_config {[2]} None) [open_item 1; open_item 2])]) /\
  0 <= 1 <= 2.
Proof.
  assert (E : run_check_once (active_config {[2]} None) (FetchOk [open_item 1; open_item 2]) PostDone []
    = (Summary [] 2 1, config_after_fetch (active_config {[2]} None) [open_item 1; open_item 2],
       [ESave (config_after_fetch (active_config {[2]} None) [open_item 1; open_item 2])]))
    by reflexivity.
  split; [exact E|].
  destruct (cycle_summary_bounds _ _ _ _ _ _ _ _ _ E) as (_ & _ & items & Hf & Hn & Hb).
  injection Hf as <-. exact Hb.
Defined.

Lemma replace_go_no_occurrence (old new : pystr) (fuel : nat) : forall (s : pystr),
  no_occurrence old s = true -> replace_go fuel old new s = s.
Proof.
  induction fuel as [|fuel IH]; intros s Hs; simpl; [done|].
  destruct s as [|c r]; [done|]. simpl in Hs.
  apply andb_prop in Hs as [H1 H2]. apply negb_true_iff in H1.
  rewrite H1. f_equal. by apply IH.
Qed.

(** X9: the repository shown in an embed is the [repository_url] with the
    API prefix removed: for [https://api.github.com/repos/] followed by an
    [owner/name] that does not contain that prefix, it is [owner/name]. *)
Theorem repo_full_name_strips_prefix (it : item) (r : pystr) :
  dict_get (lit "repository_url") it = Some (JStr (lit "https://api.github.com/repos/" ++ r)) ->
  no_occurrence (lit "https://api.github.com/repos/") r = true ->
  repo_full_name it = Some r.
Proof.
  intros Hg Hn. unfold repo_full_name. rewrite Hg. f_equal.
  unfold py_replace.
  remember (lit "https://api.github.com/repos/") as pre eqn:Hpre.
  assert (Hne : pre <> []) by (subst; discriminate).
  destruct pre as [|c p]; [done|]. simpl.
  assert (Hs : starts_with (c :: p) (c :: p ++ r) = true).
  { unfold starts_with. apply bool_decide_true.
    change (c :: p ++ r) with ((c :: p) ++ r). apply take_app_length. }
  rewrite Hs. change (c :: p ++ r) with ((c :: p) ++ r). rewrite drop_app_length.
  simpl. by apply replace_go_no_occurrence.
Qed.

Lemma repo_full_name_strips_prefix_witness :
  dict_get (lit "repository_url") (open_item 1)
    = Some (JStr (lit "https://api.github.com/repos/" ++ lit "octo/demo")) /\
  no_occurrence (lit "https://api.github.com/repos/") (lit "octo/demo") = true /\
  repo_full_name (open_item 1) = Some (lit "octo/demo").
Proof.
  split; [reflexivity|]. split; [reflexivity|].
  apply repo_full_name_strips_prefix; reflexivity.
Defined.



(** X11: when the config file is missing, a worker iteration replaces the
    whole in-memory configuration by the default one (inactive, no known
    ids), writes it to the file, fetches nothing and sleeps 120 seconds. *)
Theorem worker_missing_file_resets (config : AppConfig) (f : fetch_outcome)
    (post : post_outcome) (now : pystr) :
  background_iteration config None f post now = (default_config, [ESave default_config], 120).
Proof. reflexivity. Qed.


